(** * Bit-banged debug serial output of the moteus firmware

    Shallow embedding of the two variants of the debug transmitter:
    - [Otavio]  : src/fw/otavio.h (cycle-counter delay, interrupt masking)
    - [Part000] : src/unnamed/part_000 (busy-loop delay, no interrupt code)

    Both declare [CpuDelay], [SendDebug] and [SendDebugf] in namespace
    [moteus]; the framing loop of [SendDebug] is textually the same in both
    and is embedded once, in [Section Framing]. *)

From Stdlib Require Import ZArith List Bool Lia.
From Stdlib Require Import QArith Qpower SpecFloat.
Import ListNotations.
Open Scope Z_scope.

(** ** Machine state observed by the transmitter *)

(** What the code does to the outside world, in program order. *)
Inductive event : Type :=
| PinInit (value : Z)      (* DigitalOut db2(pin, value)  *)
| PinWrite (value : Z)     (* db2.write(value)            *)
| Delay (cycles : Z)       (* CpuDelay(cycles)            *)
| IrqDisable               (* __disable_irq()             *)
| IrqEnable.               (* __enable_irq()              *)

(** One trace entry: the event, and the pin level and interrupt mask that
    hold once it has taken effect. *)
Record sample : Type := mkSample
  { ev : event;
    level : bool;          (* true = high *)
    masked : bool }.       (* true = PRIMASK set, maskable interrupts off *)

Record hw : Type := mkHw
  { pin : bool;            (* level of the debug pin *)
    PRIMASK : bool;        (* the one-bit Cortex-M PRIMASK register *)
    trace : list sample }.

Definition record (e : event) (p m : bool) (s : hw) : hw :=
  {| pin := p; PRIMASK := m; trace := trace s ++ [mkSample e p m] |}.

(** ** A state-and-failure monad for the C code

    [None] stands for undefined behaviour (reading past the end of the
    object [str] points into). *)
Definition M (A : Type) : Type := hw -> option (A * hw).

Definition ret {A} (a : A) : M A := fun s => Some (a, s).

Definition fail {A} : M A := fun _ => None.

Definition bind {A B} (m : M A) (k : A -> M B) : M B :=
  fun s => match m s with
           | Some (a, s') => k a s'
           | None => None
           end.

Notation "x <- c1 ;; c2" := (bind c1 (fun x => c2))
  (at level 61, c1 at next level, right associativity).
Notation "c1 ;; c2" := (bind c1 (fun _ => c2))
  (at level 61, right associativity).

(** *** Primitives of mbed and CMSIS used by the source *)

(** [db2.write(value)]: a non-zero value sets the pin, zero clears it. *)
Definition DigitalOut_write (value : Z) : M unit :=
  fun s =>
    Some (tt, record (PinWrite value) (negb (value =? 0)) (PRIMASK s) s).

(** [DigitalOut db2(pin, value)]: make the pin an output driving [value]. *)
Definition DigitalOut_init (value : Z) : M unit :=
  fun s =>
    Some (tt, record (PinInit value) (negb (value =? 0)) (PRIMASK s) s).

(** [__get_PRIMASK()]: the register zero-extended to [uint32_t]. *)
Definition get_PRIMASK : M Z :=
  fun s => Some (Z.b2z (PRIMASK s), s).

(** [__disable_irq()] sets PRIMASK. *)
Definition disable_irq : M unit :=
  fun s => Some (tt, record IrqDisable (pin s) true s).

(** [__enable_irq()] clears PRIMASK. *)
Definition enable_irq : M unit :=
  fun s => Some (tt, record IrqEnable (pin s) false s).

(** A call [CpuDelay(cycles)] as the pin sees it: the current level is held
    for the duration of the call.  The two delay loops themselves are
    embedded in [Otavio.CpuDelay] and [Part000.CpuDelay]. *)
Definition call_CpuDelay (cycles : Z) : M unit :=
  fun s => Some (tt, record (Delay cycles) (pin s) (PRIMASK s) s).

(** ** Characters *)

(** The bytes of memory are numbers from 0 to 255. *)
Definition is_char (c : Z) : Prop := 0 <= c < 256.

(** Integer promotion of the [const char] read through [str]: plain [char]
    is unsigned on the ARM target and signed on most hosts.  On a negative
    [int], [>>] is the arithmetic shift, which is what [Z.shiftr] is. *)
Definition char_to_int (signed_char : bool) (c : Z) : Z :=
  if signed_char && (128 <=? c) then c - 256 else c.

(** ** The framing loop shared by both variants *)

Section Framing.

Variable signed_char : bool.
Variable CPU_CYCLES : Z.

(** The loop [for (int i = 0; i < 8; i++)], whose body writes
    [(c >> i) & 0x01] to the pin, [c] being the promoted character, and
    calls [CpuDelay(CPU_CYCLES)]; [n] is the number of iterations still to
    run. *)
Fixpoint SendDebug_for (n : nat) (i : Z) (c : Z) : M unit :=
  match n with
  | O => ret tt
  | S n' =>
      DigitalOut_write (Z.land (Z.shiftr c i) 1) ;;
      call_CpuDelay CPU_CYCLES ;;
      SendDebug_for n' (i + 1) c
  end.

(** The loop [while (c) { ...; str++; }], [c] being the character [str]
    points to, over the bytes of memory from [str] on. *)
Fixpoint SendDebug_while (str : list Z) : M unit :=
  match str with
  | [] => fail
  | b :: str' =>
      let c := char_to_int signed_char b in
      if c =? 0 then ret tt
      else
        DigitalOut_write 0 ;;
        call_CpuDelay CPU_CYCLES ;;
        SendDebug_for 8 0 c ;;
        DigitalOut_write 1 ;;
        call_CpuDelay CPU_CYCLES ;;
        SendDebug_while str'
  end.

End Framing.

(** ** [snprintf] (C library)

    [rendered] is the complete expansion of the format with its arguments;
    at most [size - 1] of its characters are stored, followed by a
    terminator; the rest of the buffer keeps its contents.  The value
    returned is the length of the complete expansion. *)
Definition snprintf (buf : list Z) (size : nat) (rendered : list Z)
  : list Z * Z :=
  match size with
  | O => (buf, Z.of_nat (length rendered))
  | S n =>
      let out := firstn n rendered in
      (out ++ 0 :: skipn (S (length out)) buf, Z.of_nat (length rendered))
  end.

Definition two32 : Z := 2 ^ 32.

(** ** src/fw/otavio.h *)
Module Otavio.

(** [DWT->CYCCNT] is a free-running 32-bit cycle counter; [now] counts the
    cycles since reset without wrapping. *)
Definition CYCCNT (now : Z) : Z := now mod two32.

Section Delay.

(** Cycles that pass from one read of the counter to the next. *)
Variable tick : Z.

(** [while (DWT->CYCCNT < target_cycle) { __NOP(); }]; the result is the
    time at which the loop is left. *)
Fixpoint CpuDelay_while (fuel : nat) (target_cycle now : Z) : option Z :=
  match fuel with
  | O => None
  | S fuel' =>
      if CYCCNT now <? target_cycle
      then CpuDelay_while fuel' target_cycle (now + tick)
      else Some now
  end.

Definition CpuDelay (fuel : nat) (cycles : Z) (now : Z) : option Z :=
  let start_cycle := CYCCNT now in
  let target_cycle := (start_cycle + cycles) mod two32 in
  CpuDelay_while fuel target_cycle (now + tick).

End Delay.

Definition CPU_CYCLES : Z := 145 * 5.

Definition SendDebug (signed_char : bool) (str : list Z) : M unit :=
  primask <- get_PRIMASK ;;
  disable_irq ;;
  DigitalOut_init 1 ;;
  SendDebug_while signed_char CPU_CYCLES str ;;
  DigitalOut_write 1 ;;
  if primask =? 0 then enable_irq else ret tt.

Section Formatter.

Variables format_t args_t : Type.

(** The expansion performed by the C library's formatter. *)
Variable render : format_t -> args_t -> list Z.

(** [buffer0] is what the 128 bytes of stack hold before the call. *)
Definition SendDebugf (signed_char : bool) (buffer0 : list Z)
           (format : format_t) (args : args_t) : M unit :=
  let buffer := fst (snprintf buffer0 128 (render format args)) in
  SendDebug signed_char buffer.

End Formatter.

End Otavio.

(** ** src/unnamed/part_000 *)
Module Part000.

(** [for (volatile uint32_t i = 0; i < cycles; i++) { __NOP(); }]; the
    result is the number of [__NOP]s executed. *)
Fixpoint CpuDelay_for (fuel : nat) (i cycles nops : Z) : option Z :=
  if i <? cycles then
    match fuel with
    | O => None
    | S fuel' => CpuDelay_for fuel' ((i + 1) mod two32) cycles (nops + 1)
    end
  else Some nops.

Definition CpuDelay (fuel : nat) (cycles : Z) : option Z :=
  CpuDelay_for fuel 0 cycles 0.

Definition CPU_CYCLES : Z := 145.

Definition SendDebug (signed_char : bool) (str : list Z) : M unit :=
  DigitalOut_init 1 ;;
  SendDebug_while signed_char CPU_CYCLES str ;;
  DigitalOut_write 1.

Section Formatter.

Variables format_t args_t : Type.

Variable render : format_t -> args_t -> list Z.

Definition SendDebugf (signed_char : bool) (buffer0 : list Z)
           (format : format_t) (args : args_t) : M unit :=
  let buffer := fst (snprintf buffer0 128 (render format args)) in
  SendDebug signed_char buffer.

End Formatter.

End Part000.

(** ** Observations on a trace *)

(** The entries a call appended to the trace. *)
Definition emitted (s s' : hw) : list sample :=
  skipn (length (trace s)) (trace s').

Definition is_delay (x : sample) : bool :=
  match ev x with Delay _ => true | _ => false end.

Definition is_drive (x : sample) : bool :=
  match ev x with
  | PinInit _ | PinWrite _ | Delay _ => true
  | _ => false
  end.

Definition drives_low (x : sample) : bool :=
  match ev x with
  | PinInit v | PinWrite v => v =? 0
  | _ => false
  end.

Definition delay_cycles (x : sample) : Z :=
  match ev x with Delay n => n | _ => 0 end.

(** The level on the pin during each bit-time slot, one entry for each call
    of [CpuDelay], as 0 or 1. *)
Definition wire (tr : list sample) : list Z :=
  map (fun x => Z.b2z (level x)) (filter is_delay tr).

(** Number of calls of [CpuDelay]. *)
Definition delays (tr : list sample) : nat := length (filter is_delay tr).

(** Cycles asked of [CpuDelay] in total. *)
Definition total_cycles (tr : list sample) : Z :=
  fold_right Z.add 0 (map delay_cycles tr).

(** The level of the pin just before the first write of a low level; [prev]
    is the level before the first entry of [tr]. *)
Fixpoint level_before_first_low (prev : bool) (tr : list sample)
  : option bool :=
  match tr with
  | [] => None
  | x :: tr' =>
      if drives_low x then Some prev
      else level_before_first_low (level x) tr'
  end.

(** A serial frame for the byte [c]: start bit, data bits [(c >> i) & 1]
    for [i] from 0 to 7, stop bit. *)
Definition frame (c : Z) : list Z :=
  0 :: map (fun i => Z.land (Z.shiftr c i) 1) [0; 1; 2; 3; 4; 5; 6; 7] ++ [1].

(** *** The entries written by the loops, as lists *)

Fixpoint for_samples (cycles : Z) (m : bool) (n : nat) (i c : Z)
  : list sample :=
  match n with
  | O => []
  | S n' =>
      let v := Z.land (Z.shiftr c i) 1 in
      mkSample (PinWrite v) (negb (v =? 0)) m
        :: mkSample (Delay cycles) (negb (v =? 0)) m
        :: for_samples cycles m n' (i + 1) c
  end.

Definition frame_samples (cycles : Z) (m : bool) (c : Z) : list sample :=
  mkSample (PinWrite 0) false m :: mkSample (Delay cycles) false m
    :: for_samples cycles m 8 0 c
    ++ [mkSample (PinWrite 1) true m; mkSample (Delay cycles) true m].

Definition while_samples (signed_char : bool) (cycles : Z) (m : bool)
           (chars : list Z) : list sample :=
  flat_map (fun b => frame_samples cycles m (char_to_int signed_char b)) chars.

Definition after_chars (chars : list Z) (p : bool) : bool :=
  match chars with [] => p | _ :: _ => true end.

Definition Otavio_samples (signed_char : bool) (chars : list Z) (s : hw)
  : list sample :=
  mkSample IrqDisable (pin s) true :: mkSample (PinInit 1) true true
    :: while_samples signed_char Otavio.CPU_CYCLES true chars
    ++ mkSample (PinWrite 1) true true
    :: (if PRIMASK s then [] else [mkSample IrqEnable true false]).

Definition Part000_samples (signed_char : bool) (chars : list Z) (s : hw)
  : list sample :=
  mkSample (PinInit 1) true (PRIMASK s)
    :: while_samples signed_char Part000.CPU_CYCLES (PRIMASK s) chars
    ++ [mkSample (PinWrite 1) true (PRIMASK s)].

Definition nonzero (c : Z) : Prop := c <> 0.

(** *** The two variants side by side *)

Inductive variant : Type :=
| CycleCounter     (* src/fw/otavio.h      *)
| BusyLoop.        (* src/unnamed/part_000 *)

Definition SendDebug_of (v : variant) : bool -> list Z -> M unit :=
  match v with
  | CycleCounter => Otavio.SendDebug
  | BusyLoop => Part000.SendDebug
  end.

Definition CPU_CYCLES_of (v : variant) : Z :=
  match v with
  | CycleCounter => Otavio.CPU_CYCLES
  | BusyLoop => Part000.CPU_CYCLES
  end.

Definition samples_of (v : variant) : bool -> list Z -> hw -> list sample :=
  match v with
  | CycleCounter => Otavio_samples
  | BusyLoop => Part000_samples
  end.

Definition SendDebugf_of (v : variant) (format_t args_t : Type)
           (render : format_t -> args_t -> list Z)
  : bool -> list Z -> format_t -> args_t -> M unit :=
  match v with
  | CycleCounter => Otavio.SendDebugf format_t args_t render
  | BusyLoop => Part000.SendDebugf format_t args_t render
  end.

(** A caller that sends one string after the other; the result lists the
    state in which each call returns. *)
Fixpoint sessions (send : list Z -> M unit) (strs : list (list Z)) (s : hw)
  : option (list hw) :=
  match strs with
  | [] => Some []
  | str :: strs' =>
      match send str s with
      | Some (_, s') => option_map (cons s') (sessions send strs' s')
      | None => None
      end
  end.

(** [str] holds a string of bytes closed by a terminator. *)
Definition c_string (str : list Z) : Prop :=
  exists chars rest,
    str = chars ++ 0 :: rest /\ Forall is_char chars /\ Forall nonzero chars.

(** The bytes of [l] before its first zero byte (all of [l] if it has
    none). *)
Fixpoint until_nul (l : list Z) : list Z :=
  match l with
  | [] => []
  | c :: l' => if c =? 0 then [] else c :: until_nul l'
  end.

Definition printable (c : Z) : Prop := 32 <= c <= 126.

(** *** The receiver of the round-trip law

    An asynchronous serial receiver at the sender's baud rate, 8 data bits,
    no parity, 1 stop bit, least-significant bit first, idle level high: it
    takes one sample of the line in each bit time. *)
Inductive rx_state : Type :=
| RxIdle
| RxData (k : nat) (acc : Z)      (* data bit [k] is next *)
| RxStop (acc : Z).

(** [None] is a framing error (stop bit sampled low). *)
Definition rx_step (st : rx_state) (lvl : Z) : option (rx_state * list Z) :=
  match st with
  | RxIdle => if lvl =? 0 then Some (RxData 0 0, []) else Some (RxIdle, [])
  | RxData k acc =>
      let acc' := acc + lvl * 2 ^ Z.of_nat k in
      if (k =? 7)%nat then Some (RxStop acc', [])
      else Some (RxData (S k) acc', [])
  | RxStop acc => if lvl =? 0 then None else Some (RxIdle, [acc])
  end.

Fixpoint uart_rx_from (st : rx_state) (line : list Z) : option (list Z) :=
  match line with
  | [] => match st with RxIdle => Some [] | _ => None end
  | lvl :: line' =>
      match rx_step st lvl with
      | Some (st', out) => option_map (app out) (uart_rx_from st' line')
      | None => None
      end
  end.

Definition uart_rx (line : list Z) : option (list Z) :=
  uart_rx_from RxIdle line.

(** *** The delay loop the specification asks for

    The same loop as [Otavio.CpuDelay] with the completion test written as
    the specification words it: leave once [current - start >= cycles] in
    unsigned 32-bit arithmetic. *)
Fixpoint CpuDelay_safe_while (tick : Z) (fuel : nat)
         (start_cycle cycles now : Z) : option Z :=
  match fuel with
  | O => None
  | S fuel' =>
      if (Otavio.CYCCNT now - start_cycle) mod two32 <? cycles
      then CpuDelay_safe_while tick fuel' start_cycle cycles (now + tick)
      else Some now
  end.

Definition CpuDelay_safe (tick : Z) (fuel : nat) (cycles : Z) (now : Z)
  : option Z :=
  CpuDelay_safe_while tick fuel (Otavio.CYCCNT now) cycles (now + tick).

(** ** The half-precision decoder (src/fw/otavio.h, lines 90 to 116)

    [float] is IEEE 754 binary32 and [double] binary64, with the
    operations of the Standard Library's specification of floating-point
    arithmetic (round to nearest, ties to even). *)

Definition is_uint16 (value : Z) : Prop := 0 <= value < 65536.

(** Conversion of an [int] to [float]; also the literals [1.0f] and
    [1024.0f]. *)
Definition float_of_int (n : Z) : spec_float :=
  binary_normalize 24 128 n 0 false.

(** Conversion of a [float] operand to [double]. *)
Definition double_of_float (x : spec_float) : spec_float :=
  match x with
  | S754_finite s m e => binary_normalize 53 1024 (cond_Zopp s (Zpos m)) e s
  | _ => x
  end.

(** Conversion of the [double] product to the [float] returned. *)
Definition float_of_double (x : spec_float) : spec_float :=
  match x with
  | S754_finite s m e => binary_normalize 24 128 (cond_Zopp s (Zpos m)) e s
  | _ => x
  end.

(** [std::pow(2.0f, n)] for an [int] [n]: the arguments are promoted to
    [double], and the result is the [double] 2^n. *)
Definition std_pow2 (n : Z) : spec_float :=
  SFldexp 53 1024 (SFone 53 1024) n.

Definition INFINITY : spec_float := S754_infinity false.

Definition NAN : spec_float := S754_nan.

Definition float16_to_float32 (value : Z) : spec_float :=
  let sign := Z.shiftr (Z.land value 0x8000) 15 in
  let exponent := Z.shiftr (Z.land value 0x7C00) 10 in
  let mantissa := Z.land value 0x03FF in
  if exponent =? 0 then
    if mantissa =? 0 then
      if negb (sign =? 0) then SFopp (S754_zero false) else S754_zero false
    else
      float_of_double
        (SFmul 53 1024
           (double_of_float
              (SFmul 24 128
                 (if negb (sign =? 0) then SFopp (float_of_int 1)
                  else float_of_int 1)
                 (SFdiv 24 128 (float_of_int mantissa) (float_of_int 1024))))
           (std_pow2 (-14)))
  else if exponent =? 31 then
    if mantissa =? 0 then
      if negb (sign =? 0) then SFopp INFINITY else INFINITY
    else NAN
  else
    float_of_double
      (SFmul 53 1024
         (double_of_float
            (SFmul 24 128
               (if negb (sign =? 0) then SFopp (float_of_int 1)
                else float_of_int 1)
               (SFadd 24 128 (float_of_int 1)
                  (SFdiv 24 128 (float_of_int mantissa)
                     (float_of_int 1024)))))
         (std_pow2 (exponent - 15))).

(** *** Reading the floats that come out *)

(** The real number a finite float stands for. *)
Definition SF2Q (x : spec_float) : Q :=
  match x with
  | S754_finite s m e =>
      ((if s then -1 else 1) * inject_Z (Zpos m) * Qpower 2 e)%Q
  | _ => 0%Q
  end.

(** The real number a finite IEEE 754 binary16 bit pattern stands for:
    sign in bit 15, exponent in bits 14 to 10, fraction in bits 9 to 0. *)
Definition half_value (value : Z) : Q :=
  let exponent := (value / 1024) mod 32 in
  let mantissa := value mod 1024 in
  ((if 32768 <=? value then -1 else 1)
   * (if exponent =? 0 then (mantissa # 1024) * Qpower 2 (-14)
      else (1 + (mantissa # 1024)) * Qpower 2 (exponent - 15)))%Q.

(** The binary32 float of a binary16 bit pattern, written out. *)
Definition half_decode (value : Z) : spec_float :=
  let s := 32768 <=? value in
  let exponent := (value / 1024) mod 32 in
  let mantissa := value mod 1024 in
  if exponent =? 0 then
    if mantissa =? 0 then S754_zero s
    else
      let d := Z.log2 mantissa + 1 in
      S754_finite s (Z.to_pos (mantissa * 2 ^ (24 - d))) (d - 48)
  else if exponent =? 31 then
    if mantissa =? 0 then S754_infinity s else S754_nan
  else S754_finite s (Z.to_pos ((1024 + mantissa) * 8192)) (exponent - 38).

(** The bit pattern whose decoding is [x]. *)
Definition half_encode (x : spec_float) : Z :=
  match x with
  | S754_zero s => if s then 32768 else 0
  | S754_infinity s => 31744 + (if s then 32768 else 0)
  | S754_nan => 32256
  | S754_finite s m e =>
      (if s then 32768 else 0)
      + (if e <=? -38 then Zpos m / 2 ^ (-24 - e)
         else (e + 38) * 1024 + (Zpos m / 8192 - 1024))
  end.

(** A number that grows with a non-negative float of at most 24 bits. *)
Definition order_key (x : spec_float) : option Z :=
  match x with
  | S754_zero false => Some 0
  | S754_infinity false => Some (2 ^ 40)
  | S754_finite false m e =>
      if (8388608 <=? Zpos m) && (Zpos m <? 16777216)
         && (-200 <=? e) && (e <=? 0)
      then Some ((e + 200) * 16777216 + Zpos m)
      else None
  | _ => None
  end.

Definition half_check (v : Z) : bool :=
  valid_binary 24 128 (half_decode v)
  && ((31744 <? v mod 32768) || (half_encode (half_decode v) =? v))
  && ((31744 <=? v mod 32768)
      || SFleb (SFabs (half_decode v)) (S754_finite false 16769024 (-8))).

Definition order_check (v : Z) : bool :=
  (31744 <=? v)
  || match order_key (half_decode v), order_key (half_decode (v + 1)) with
     | Some a, Some b => a <? b
     | _, _ => false
     end.

(** *** Checking a property on every pattern of [k] bits *)

Fixpoint forall_bits (k : nat) (base : Z) (p : Z -> bool) : bool :=
  match k with
  | O => p base
  | S k' => forall_bits k' (2 * base) p && forall_bits k' (2 * base + 1) p
  end.

Definition SF_eqb (x y : spec_float) : bool :=
  match x, y with
  | S754_zero a, S754_zero b => Bool.eqb a b
  | S754_infinity a, S754_infinity b => Bool.eqb a b
  | S754_nan, S754_nan => true
  | S754_finite a m e, S754_finite b n f =>
      Bool.eqb a b && Pos.eqb m n && Z.eqb e f
  | _, _ => false
  end.

(** * Properties *)

(** ** Running the loops *)

Lemma hw_eta (s : hw) : s = mkHw (pin s) (PRIMASK s) (trace s).
Proof. destruct s; reflexivity. Qed.

Lemma SendDebug_for_run cycles n :
  forall i c s,
  exists p,
    SendDebug_for cycles n i c s
    = Some (tt, mkHw p (PRIMASK s)
                     (trace s ++ for_samples cycles (PRIMASK s) n i c)).
Proof.
  induction n as [|n IH]; intros i c s.
  - exists (pin s). simpl. unfold ret. rewrite app_nil_r.
    rewrite <- hw_eta. reflexivity.
  - simpl. unfold bind at 1. unfold DigitalOut_write at 1.
    unfold bind at 1. unfold call_CpuDelay at 1.
    destruct (IH (i + 1) c
                (record (Delay cycles)
                   (pin (record (PinWrite (Z.land (Z.shiftr c i) 1))
                           (negb (Z.land (Z.shiftr c i) 1 =? 0))
                           (PRIMASK s) s))
                   (PRIMASK (record (PinWrite (Z.land (Z.shiftr c i) 1))
                               (negb (Z.land (Z.shiftr c i) 1 =? 0))
                               (PRIMASK s) s))
                   (record (PinWrite (Z.land (Z.shiftr c i) 1))
                      (negb (Z.land (Z.shiftr c i) 1 =? 0))
                      (PRIMASK s) s))) as [p Hp].
    exists p. rewrite Hp. simpl. rewrite <- !app_assoc. reflexivity.
Qed.

Lemma char_to_int_0 signed_char : char_to_int signed_char 0 = 0.
Proof. destruct signed_char; reflexivity. Qed.

Lemma frame_run cycles c (k : M unit) s :
  (DigitalOut_write 0 ;; call_CpuDelay cycles ;; SendDebug_for cycles 8 0 c ;;
   DigitalOut_write 1 ;; call_CpuDelay cycles ;; k) s
  = k (mkHw true (PRIMASK s)
            (trace s ++ frame_samples cycles (PRIMASK s) c)).
Proof.
  unfold bind at 1. unfold DigitalOut_write at 1.
  unfold bind at 1. unfold call_CpuDelay at 1.
  unfold bind at 1.
  match goal with
  | |- context [SendDebug_for cycles 8 0 c ?st] =>
      destruct (SendDebug_for_run cycles 8 0 c st) as [p Hp]; rewrite Hp
  end.
  unfold bind, DigitalOut_write, call_CpuDelay, record, frame_samples.
  cbn [pin PRIMASK trace].
  f_equal. f_equal.
  rewrite <- !app_assoc. reflexivity.
Qed.

Lemma SendDebug_while_run signed_char cycles rest :
  forall chars s,
    Forall (fun b => char_to_int signed_char b <> 0) chars ->
    SendDebug_while signed_char cycles (chars ++ 0 :: rest) s
    = Some (tt, mkHw (after_chars chars (pin s)) (PRIMASK s)
                     (trace s
                      ++ while_samples signed_char cycles (PRIMASK s) chars)).
Proof.
  induction chars as [|b chars IH]; intros s Hnz.
  - cbn [app SendDebug_while]. rewrite char_to_int_0. simpl.
    unfold ret. rewrite app_nil_r, <- hw_eta. reflexivity.
  - inversion Hnz as [|? ? Hb Hrest]; subst.
    cbn [app SendDebug_while].
    destruct (char_to_int signed_char b =? 0) eqn:E.
    + apply Z.eqb_eq in E. contradiction.
    + rewrite frame_run. rewrite IH by assumption.
      cbn [pin PRIMASK trace after_chars].
      unfold while_samples. cbn [flat_map].
      rewrite <- !app_assoc.
      f_equal. f_equal. f_equal. destruct chars; reflexivity.
Qed.

Lemma char_to_int_nonzero signed_char b :
  is_char b -> nonzero b -> char_to_int signed_char b <> 0.
Proof.
  unfold is_char, nonzero, char_to_int. intros Hb Hnz.
  destruct (signed_char && (128 <=? b)); lia.
Qed.

Lemma chars_nonzero signed_char chars :
  Forall is_char chars -> Forall nonzero chars ->
  Forall (fun b => char_to_int signed_char b <> 0) chars.
Proof.
  intros Hc Hnz. rewrite Forall_forall in *. intros b Hin.
  apply char_to_int_nonzero; auto.
Qed.

Lemma Otavio_SendDebug_run signed_char chars rest s :
  Forall is_char chars -> Forall nonzero chars ->
  Otavio.SendDebug signed_char (chars ++ 0 :: rest) s
  = Some (tt, mkHw true (PRIMASK s)
                   (trace s ++ Otavio_samples signed_char chars s)).
Proof.
  intros Hc Hnz. unfold Otavio.SendDebug.
  unfold bind at 1. unfold get_PRIMASK at 1.
  unfold bind at 1. unfold disable_irq at 1.
  unfold bind at 1. unfold DigitalOut_init at 1.
  unfold bind at 1.
  rewrite SendDebug_while_run by (apply chars_nonzero; assumption).
  unfold bind, DigitalOut_write, enable_irq, ret, record, Otavio_samples.
  destruct (PRIMASK s);
    cbn [pin PRIMASK trace negb Z.eqb Z.b2z after_chars];
    rewrite <- ?app_assoc; cbn [app]; rewrite ?app_nil_r; reflexivity.
Qed.

Lemma Part000_SendDebug_run signed_char chars rest s :
  Forall is_char chars -> Forall nonzero chars ->
  Part000.SendDebug signed_char (chars ++ 0 :: rest) s
  = Some (tt, mkHw true (PRIMASK s)
                   (trace s ++ Part000_samples signed_char chars s)).
Proof.
  intros Hc Hnz. unfold Part000.SendDebug.
  unfold bind at 1. unfold DigitalOut_init at 1.
  unfold bind at 1.
  rewrite SendDebug_while_run by (apply chars_nonzero; assumption).
  unfold DigitalOut_write, record, Part000_samples.
  cbn [pin PRIMASK trace negb Z.eqb].
  rewrite <- ?app_assoc; cbn [app]; reflexivity.
Qed.

Lemma emitted_app s p m l :
  emitted s (mkHw p m (trace s ++ l)) = l.
Proof.
  unfold emitted. cbn [trace].
  rewrite skipn_app, skipn_all, Nat.sub_diag. reflexivity.
Qed.

(** ** What the written entries show *)

Lemma wire_app l1 l2 : wire (l1 ++ l2) = wire l1 ++ wire l2.
Proof. unfold wire. rewrite filter_app, map_app. reflexivity. Qed.

Lemma delays_app l1 l2 : delays (l1 ++ l2) = (delays l1 + delays l2)%nat.
Proof. unfold delays. rewrite filter_app, length_app. reflexivity. Qed.

Lemma total_cycles_app l1 l2 :
  total_cycles (l1 ++ l2) = total_cycles l1 + total_cycles l2.
Proof.
  unfold total_cycles. induction l1 as [|x l1 IH]; cbn [app map fold_right].
  - lia.
  - rewrite IH. lia.
Qed.

Lemma land1_level x : Z.b2z (negb (Z.land x 1 =? 0)) = Z.land x 1.
Proof.
  assert (Hl : Z.land x 1 = x mod 2)
    by (change 1 with (Z.ones 1); rewrite Z.land_ones by lia; reflexivity).
  rewrite Hl.
  assert (H : 0 <= x mod 2 < 2) by (apply Z.mod_pos_bound; lia).
  destruct (x mod 2 =? 0) eqn:E.
  - apply Z.eqb_eq in E. rewrite E. reflexivity.
  - apply Z.eqb_neq in E. replace (x mod 2) with 1 by lia. reflexivity.
Qed.

Lemma land1_bit x i : 0 <= i -> Z.land (Z.shiftr x i) 1 = (x / 2 ^ i) mod 2.
Proof.
  intros Hi. change 1 with (Z.ones 1). rewrite Z.land_ones by lia.
  rewrite Z.shiftr_div_pow2 by assumption. reflexivity.
Qed.

Lemma wire_frame_samples cycles m c :
  wire (frame_samples cycles m c) = frame c.
Proof.
  unfold frame_samples, frame, wire.
  cbn [for_samples app filter is_delay ev map level Z.b2z Z.add Pos.add
       Pos.succ].
  rewrite !land1_level. reflexivity.
Qed.

Lemma bit_below_sign b i :
  0 <= i < 8 -> ((b - 256) / 2 ^ i) mod 2 = (b / 2 ^ i) mod 2.
Proof.
  intros Hi.
  assert (Hc : i = 0 \/ i = 1 \/ i = 2 \/ i = 3
               \/ i = 4 \/ i = 5 \/ i = 6 \/ i = 7) by lia.
  repeat (destruct Hc as [Hc|Hc]; [subst i|]); [..|subst i];
    match goal with
    | |- context [2 ^ ?k] =>
        let v := eval cbv in (2 ^ k) in change (2 ^ k) with v
    end;
    Z.div_mod_to_equations; lia.
Qed.

Lemma frame_char_to_int signed_char b :
  is_char b -> frame (char_to_int signed_char b) = frame b.
Proof.
  unfold is_char, char_to_int. intros Hb.
  destruct (signed_char && (128 <=? b)) eqn:E; [|reflexivity].
  unfold frame. cbn [map]. rewrite !land1_bit by lia.
  rewrite !bit_below_sign by lia. reflexivity.
Qed.

Lemma wire_while_samples signed_char cycles m chars :
  Forall is_char chars ->
  wire (while_samples signed_char cycles m chars) = flat_map frame chars.
Proof.
  unfold while_samples. induction 1 as [|b chars Hb _ IH]; cbn [flat_map].
  - reflexivity.
  - rewrite wire_app, wire_frame_samples, IH, frame_char_to_int by assumption.
    reflexivity.
Qed.

Lemma delays_while_samples signed_char cycles m chars :
  delays (while_samples signed_char cycles m chars) = (10 * length chars)%nat.
Proof.
  unfold while_samples. induction chars as [|b chars IH]; cbn [flat_map].
  - reflexivity.
  - rewrite delays_app, IH. cbn [length].
    change (delays (frame_samples cycles m (char_to_int signed_char b)))
      with 10%nat.
    lia.
Qed.

Lemma total_cycles_while_samples signed_char cycles m chars :
  total_cycles (while_samples signed_char cycles m chars)
  = 10 * Z.of_nat (length chars) * cycles.
Proof.
  unfold while_samples. induction chars as [|b chars IH]; cbn [flat_map].
  - reflexivity.
  - rewrite total_cycles_app, IH.
    unfold frame_samples, total_cycles.
    cbn [for_samples app map delay_cycles ev fold_right length].
    lia.
Qed.

(** ** Either variant on a terminated string *)

Lemma SendDebug_of_run v signed_char chars rest s :
  Forall is_char chars -> Forall nonzero chars ->
  SendDebug_of v signed_char (chars ++ 0 :: rest) s
  = Some (tt, mkHw true (PRIMASK s)
                   (trace s ++ samples_of v signed_char chars s)).
Proof.
  destruct v; cbn [SendDebug_of samples_of].
  - apply Otavio_SendDebug_run.
  - apply Part000_SendDebug_run.
Qed.

Lemma wire_samples_of v signed_char chars s :
  Forall is_char chars ->
  wire (samples_of v signed_char chars s) = flat_map frame chars.
Proof.
  intros Hc.
  destruct v; cbn [samples_of]; unfold Otavio_samples, Part000_samples.
  - change (wire (?a :: ?b :: ?l)) with (wire l).
    rewrite wire_app, wire_while_samples by assumption.
    destruct (PRIMASK s); cbn; apply app_nil_r.
  - change (wire (?a :: ?l)) with (wire l).
    rewrite wire_app, wire_while_samples by assumption.
    cbn; apply app_nil_r.
Qed.

Lemma delays_samples_of v signed_char chars s :
  delays (samples_of v signed_char chars s) = (10 * length chars)%nat.
Proof.
  destruct v; cbn [samples_of]; unfold Otavio_samples, Part000_samples.
  - change (delays (?a :: ?b :: ?l)) with (delays l).
    rewrite delays_app, delays_while_samples.
    destruct (PRIMASK s); cbn; lia.
  - change (delays (?a :: ?l)) with (delays l).
    rewrite delays_app, delays_while_samples. cbn; lia.
Qed.

Lemma total_cycles_samples_of v signed_char chars s :
  total_cycles (samples_of v signed_char chars s)
  = 10 * Z.of_nat (length chars) * CPU_CYCLES_of v.
Proof.
  destruct v; cbn [samples_of CPU_CYCLES_of];
    unfold Otavio_samples, Part000_samples.
  - change (total_cycles (?a :: ?b :: ?l)) with (0 + (0 + total_cycles l)).
    rewrite total_cycles_app, total_cycles_while_samples.
    destruct (PRIMASK s); cbn [total_cycles map delay_cycles ev fold_right];
      lia.
  - change (total_cycles (?a :: ?l)) with (0 + total_cycles l).
    rewrite total_cycles_app, total_cycles_while_samples.
    cbn [total_cycles map delay_cycles ev fold_right]. lia.
Qed.

(** ** Frames on the wire *)

(** C1: for a string of non-zero bytes followed by its terminator, either
    variant of [SendDebug] returns, and the levels held on the pin during
    the successive bit-time slots are, byte after byte in order, one
    10-slot frame each: low for the start bit, then [(byte >> i) & 1] for
    [i] from 0 to 7, then high for the stop bit.  For the one byte 0x41 the
    ten levels are 0,1,0,0,0,0,0,1,0,1. *)
Theorem SendDebug_emits_frames :
  forall v signed_char chars rest s,
    Forall is_char chars -> Forall nonzero chars -> chars <> [] ->
    exists s',
      SendDebug_of v signed_char (chars ++ 0 :: rest) s = Some (tt, s')
      /\ wire (emitted s s') = flat_map frame chars
      /\ (forall c,
             frame c
             = [0; Z.land (Z.shiftr c 0) 1; Z.land (Z.shiftr c 1) 1;
                Z.land (Z.shiftr c 2) 1; Z.land (Z.shiftr c 3) 1;
                Z.land (Z.shiftr c 4) 1; Z.land (Z.shiftr c 5) 1;
                Z.land (Z.shiftr c 6) 1; Z.land (Z.shiftr c 7) 1; 1])
      /\ (chars = [65] ->
          wire (emitted s s') = [0; 1; 0; 0; 0; 0; 0; 1; 0; 1]).
Proof.
  intros v signed_char chars rest s Hc Hnz _.
  eexists. split; [apply SendDebug_of_run; assumption|].
  rewrite emitted_app, wire_samples_of by assumption.
  split; [reflexivity|]. split; [reflexivity|].
  intros ->. reflexivity.
Qed.

Lemma SendDebug_emits_frames_witness :
  (Forall is_char [72; 105] /\ Forall nonzero [72; 105] /\ [72; 105] <> [])
  /\ exists s',
      SendDebug_of CycleCounter false ([72; 105] ++ 0 :: [7])
                   (mkHw false false [])
      = Some (tt, s')
      /\ wire (emitted (mkHw false false []) s') = flat_map frame [72; 105].
Proof.
  assert (H : Forall is_char [72; 105] /\ Forall nonzero [72; 105]
              /\ [72; 105] <> []).
  { unfold is_char, nonzero.
    repeat split; repeat constructor; try lia; discriminate. }
  split; [exact H|].
  destruct H as (Hc & Hnz & Hne).
  destruct (SendDebug_emits_frames CycleCounter false [72; 105] [7]
              (mkHw false false []) Hc Hnz Hne) as (s' & Hrun & Hwire & _).
  exists s'. split; assumption.
Defined.

(** ** Delay intervals *)



(** ** Interrupt masking *)

Lemma while_samples_masked signed_char cycles m chars :
  Forall (fun x => masked x = m /\ is_drive x = true)
         (while_samples signed_char cycles m chars).
Proof.
  unfold while_samples. induction chars as [|b chars IH]; cbn [flat_map].
  - constructor.
  - apply Forall_app. split; [|exact IH].
    unfold frame_samples. cbn [for_samples app].
    repeat constructor.
Qed.

(** C4, as the code has it: in src/fw/otavio.h the first thing a call does
    to the machine is [__disable_irq()], and every later pin write and
    every delay of the call, through all start, data and stop bits, runs
    with interrupts masked; in src/unnamed/part_000 the interrupt mask is
    never touched, so the whole call runs under the mask the caller had. *)
Theorem SendDebug_masks_while_driving :
  forall signed_char chars rest s,
    Forall is_char chars -> Forall nonzero chars ->
    (exists s' later,
        Otavio.SendDebug signed_char (chars ++ 0 :: rest) s = Some (tt, s')
        /\ emitted s s' = mkSample IrqDisable (pin s) true :: later
        /\ Forall (fun x => is_drive x = true -> masked x = true)
                  (emitted s s'))
    /\ (exists s',
           Part000.SendDebug signed_char (chars ++ 0 :: rest) s = Some (tt, s')
           /\ Forall (fun x => masked x = PRIMASK s) (emitted s s')).
Proof.
  intros signed_char chars rest s Hc Hnz. split.
  - eexists. eexists.
    split; [apply Otavio_SendDebug_run; assumption|].
    rewrite emitted_app. unfold Otavio_samples.
    split; [reflexivity|].
    constructor; [reflexivity|]. constructor; [reflexivity|].
    apply Forall_app. split.
    + eapply Forall_impl; [|apply while_samples_masked].
      cbn beta. intros x [Hm _] _. exact Hm.
    + destruct (PRIMASK s); repeat constructor; cbn; congruence.
  - eexists.
    split; [apply Part000_SendDebug_run; assumption|].
    rewrite emitted_app. unfold Part000_samples.
    constructor; [reflexivity|].
    apply Forall_app. split.
    + eapply Forall_impl; [|apply while_samples_masked].
      cbn beta. intros x [Hm _]. exact Hm.
    + repeat constructor.
Qed.

Lemma SendDebug_masks_while_driving_witness :
  (Forall is_char [33] /\ Forall nonzero [33])
  /\ exists s',
      Otavio.SendDebug false ([33] ++ 0 :: []) (mkHw true false [])
      = Some (tt, s')
      /\ Forall (fun x => is_drive x = true -> masked x = true)
                (emitted (mkHw true false []) s').
Proof.
  assert (H : Forall is_char [33] /\ Forall nonzero [33]).
  { unfold is_char, nonzero. repeat split; repeat constructor; lia. }
  split; [exact H|].
  destruct H as (Hc & Hnz).
  destruct (SendDebug_masks_while_driving false [33] []
              (mkHw true false []) Hc Hnz)
    as ((s' & later & Hrun & _ & Hall) & _).
  exists s'. split; assumption.
Defined.

(** C4 as stated fails on src/unnamed/part_000: entered with interrupts
    enabled, it drives the pin with interrupts still enabled. *)
Lemma SendDebug_busy_loop_not_masked :
  exists s',
    Part000.SendDebug false [65; 0] (mkHw true false []) = Some (tt, s')
    /\ ~ Forall (fun x => is_drive x = true -> masked x = true)
                (emitted (mkHw true false []) s').
Proof.
  eexists. split; [vm_compute; reflexivity|].
  intros H. apply Forall_inv in H. cbn in H.
  specialize (H eq_refl). discriminate H.
Qed.

(** C5: whatever the interrupt mask before a call of [SendDebug], it is the
    same when the call returns: enabled interrupts are enabled again,
    disabled ones stay disabled, and when the caller had them disabled no
    [__enable_irq()] is executed at all. *)
Theorem SendDebug_restores_interrupt_state :
  forall v signed_char chars rest s,
    Forall is_char chars -> Forall nonzero chars ->
    exists s',
      SendDebug_of v signed_char (chars ++ 0 :: rest) s = Some (tt, s')
      /\ PRIMASK s' = PRIMASK s
      /\ (PRIMASK s = true ->
          Forall (fun x => ev x <> IrqEnable) (emitted s s')).
Proof.
  intros v signed_char chars rest s Hc Hnz.
  eexists. split; [apply SendDebug_of_run; assumption|].
  rewrite emitted_app. split; [reflexivity|].
  intros Hm.
  assert (Hw : forall cycles m,
             Forall (fun x => ev x <> IrqEnable)
                    (while_samples signed_char cycles m chars)).
  { intros cycles m.
    eapply Forall_impl; [|apply while_samples_masked].
    cbn beta. intros x [_ Hd] He. unfold is_drive in Hd.
    rewrite He in Hd. discriminate Hd. }
  destruct v; cbn [samples_of]; unfold Otavio_samples, Part000_samples.
  - rewrite Hm.
    constructor; [cbn; congruence|]. constructor; [cbn; congruence|].
    apply Forall_app. split; [apply Hw|].
    repeat constructor; cbn; congruence.
  - constructor; [cbn; congruence|].
    apply Forall_app. split; [apply Hw|].
    repeat constructor; cbn; congruence.
Qed.

Lemma SendDebug_restores_interrupt_state_witness :
  (Forall is_char [90] /\ Forall nonzero [90])
  /\ exists s',
      SendDebug_of CycleCounter false ([90] ++ 0 :: []) (mkHw true true [])
      = Some (tt, s')
      /\ PRIMASK s' = true.
Proof.
  assert (H : Forall is_char [90] /\ Forall nonzero [90]).
  { unfold is_char, nonzero. repeat split; repeat constructor; lia. }
  split; [exact H|].
  destruct H as (Hc & Hnz).
  destruct (SendDebug_restores_interrupt_state CycleCounter false [90] []
              (mkHw true true []) Hc Hnz)
    as (s' & Hrun & Hm & _).
  exists s'. split; assumption.
Defined.

(** ** The empty string *)

(** C6, as the code has it: called on the empty string, either variant of
    [SendDebug] returns having emitted no frame (no call of [CpuDelay], no
    low level written), with the interrupt mask as it was and with the pin
    driven high: the level is unchanged when the pin was high before the
    call. *)
Theorem SendDebug_empty_string :
  forall v signed_char rest s,
  exists s',
    SendDebug_of v signed_char (0 :: rest) s = Some (tt, s')
    /\ delays (emitted s s') = 0%nat
    /\ wire (emitted s s') = []
    /\ Forall (fun x => drives_low x = false) (emitted s s')
    /\ pin s' = true
    /\ (pin s = true -> pin s' = pin s)
    /\ PRIMASK s' = PRIMASK s.
Proof.
  intros v signed_char rest s.
  exists (mkHw true (PRIMASK s) (trace s ++ samples_of v signed_char [] s)).
  split; [apply (SendDebug_of_run v signed_char [] rest s); constructor|].
  rewrite emitted_app.
  split; [apply (delays_samples_of v signed_char [] s)|].
  split; [apply (wire_samples_of v signed_char [] s); constructor|].
  split; [|split; [reflexivity|split; [intros ->; reflexivity|reflexivity]]].
  destruct v; cbn [samples_of]; unfold Otavio_samples, Part000_samples;
    cbn [while_samples flat_map app].
  - destruct (PRIMASK s); repeat constructor.
  - repeat constructor.
Qed.

(** C6 as stated fails: with the pin low before the call, the empty string
    leaves it high. *)
Lemma SendDebug_empty_string_changes_low_pin :
  (exists s',
      Otavio.SendDebug false [0] (mkHw false false []) = Some (tt, s')
      /\ pin s' <> pin (mkHw false false []))
  /\ (exists s',
         Part000.SendDebug false [0] (mkHw false false []) = Some (tt, s')
         /\ pin s' <> pin (mkHw false false [])).
Proof.
  split; eexists; (split; [vm_compute; reflexivity|]); cbn; discriminate.
Qed.

(** ** Idle level *)

Lemma SendDebug_of_returns_high v signed_char str s s' :
  SendDebug_of v signed_char str s = Some (tt, s') -> pin s' = true.
Proof.
  destruct v; cbn [SendDebug_of].
  - unfold Otavio.SendDebug, bind, get_PRIMASK, disable_irq, DigitalOut_init.
    destruct (SendDebug_while _ _ _ _) as [[u s1]|]; [|discriminate].
    unfold DigitalOut_write.
    destruct (Z.b2z (PRIMASK s) =? 0); unfold enable_irq, ret;
      intros H; inversion H; reflexivity.
  - unfold Part000.SendDebug, bind, DigitalOut_init.
    destruct (SendDebug_while _ _ _ _) as [[u s1]|]; [|discriminate].
    unfold DigitalOut_write. intros H; inversion H; reflexivity.
Qed.

Lemma sessions_idle_high v signed_char strs :
  Forall c_string strs ->
  forall s,
  exists states,
    sessions (SendDebug_of v signed_char) strs s = Some states
    /\ length states = length strs
    /\ Forall (fun st => pin st = true) states.
Proof.
  induction 1 as [|str strs Hstr _ IH]; intros s.
  - exists []. repeat split; constructor.
  - destruct Hstr as (chars & rest & -> & Hc & Hnz).
    cbn [sessions].
    rewrite SendDebug_of_run by assumption.
    destruct (IH (mkHw true (PRIMASK s)
                       (trace s ++ samples_of v signed_char chars s)))
      as (states & Hrun & Hlen & Hall).
    rewrite Hrun. eexists. split; [reflexivity|].
    cbn [length]. split; [congruence|].
    constructor; [reflexivity|assumption].
Qed.

Lemma level_before_start v signed_char b chars s :
  level_before_first_low (pin s) (samples_of v signed_char (b :: chars) s)
  = Some true.
Proof.
  destruct v; reflexivity.
Qed.



(** ** The terminator *)

Lemma first_nul_split (str : list Z) :
  In 0 str ->
  exists sent post, str = sent ++ 0 :: post /\ Forall nonzero sent.
Proof.
  induction str as [|c str IH]; intros Hin.
  - destruct Hin.
  - destruct (Z.eq_dec c 0) as [->|Hc].
    + exists [], str. split; [reflexivity|constructor].
    + destruct Hin as [Hin|Hin]; [congruence|].
      destruct (IH Hin) as (sent & post & -> & Hnz).
      exists (c :: sent), post. split; [reflexivity|].
      constructor; assumption.
Qed.

Lemma frame_length c : length (frame c) = 10%nat.
Proof. reflexivity. Qed.

Lemma nth_frame_on_wire chars :
  forall k,
    (k < length chars)%nat ->
    firstn 10 (skipn (10 * k) (flat_map frame chars)) = frame (nth k chars 0).
Proof.
  induction chars as [|c chars IH]; intros k Hk; cbn [length] in Hk.
  - lia.
  - cbn [flat_map]. destruct k as [|k].
    + change (10 * 0)%nat with 0%nat. cbn [skipn nth].
      replace 10%nat with (length (frame c) + 0)%nat at 1
        by (rewrite frame_length; reflexivity).
      rewrite firstn_app_2. cbn [firstn]. apply app_nil_r.
    + replace (10 * S k)%nat with (length (frame c) + 10 * k)%nat
        by (rewrite frame_length; lia).
      rewrite skipn_app, skipn_all2 by lia.
      replace (length (frame c) + 10 * k - length (frame c))%nat
        with (10 * k)%nat by lia.
      cbn [app nth]. apply IH. lia.
Qed.

Lemma frame_zero_only c : is_char c -> frame c = frame 0 -> c = 0.
Proof.
  unfold is_char, frame. cbn [map app]. intros Hc H.
  injection H as H0 H1 H2 H3 H4 H5 H6 H7.
  rewrite land1_bit in * by lia.
  change (0 / 2 ^ _) with 0 in *. change (0 mod 2) with 0 in *.
  change (2 ^ 0) with 1 in *. change (2 ^ 1) with 2 in *.
  change (2 ^ 2) with 4 in *. change (2 ^ 3) with 8 in *.
  change (2 ^ 4) with 16 in *. change (2 ^ 5) with 32 in *.
  change (2 ^ 6) with 64 in *. change (2 ^ 7) with 128 in *.
  Z.div_mod_to_equations. lia.
Qed.



(** ** Round trip through a receiver *)

Lemma byte_of_bits c :
  is_char c ->
  0 + (c / 2 ^ 0) mod 2 * 2 ^ Z.of_nat 0 + (c / 2 ^ 1) mod 2 * 2 ^ Z.of_nat 1
  + (c / 2 ^ 2) mod 2 * 2 ^ Z.of_nat 2 + (c / 2 ^ 3) mod 2 * 2 ^ Z.of_nat 3
  + (c / 2 ^ 4) mod 2 * 2 ^ Z.of_nat 4 + (c / 2 ^ 5) mod 2 * 2 ^ Z.of_nat 5
  + (c / 2 ^ 6) mod 2 * 2 ^ Z.of_nat 6 + (c / 2 ^ 7) mod 2 * 2 ^ Z.of_nat 7
  = c.
Proof.
  unfold is_char. intros Hc.
  cbn [Z.of_nat Pos.of_succ_nat Pos.succ].
  change (2 ^ 0) with 1. change (2 ^ 1) with 2.
  change (2 ^ 2) with 4. change (2 ^ 3) with 8.
  change (2 ^ 4) with 16. change (2 ^ 5) with 32.
  change (2 ^ 6) with 64. change (2 ^ 7) with 128.
  Z.div_mod_to_equations. lia.
Qed.

Lemma uart_rx_frame c line :
  is_char c ->
  uart_rx_from RxIdle (frame c ++ line)
  = option_map (cons c) (uart_rx_from RxIdle line).
Proof.
  intros Hc. unfold frame.
  cbn [map app uart_rx_from rx_step Nat.eqb Z.eqb].
  destruct (uart_rx_from RxIdle line) as [out|]; cbn [option_map app];
    [|reflexivity].
  rewrite !land1_bit by lia. rewrite byte_of_bits by assumption.
  reflexivity.
Qed.

Lemma uart_rx_frames chars :
  Forall is_char chars -> uart_rx (flat_map frame chars) = Some chars.
Proof.
  unfold uart_rx. induction 1 as [|c chars Hc _ IH]; cbn [flat_map].
  - reflexivity.
  - rewrite uart_rx_frame, IH by assumption. reflexivity.
Qed.

Lemma printable_chars chars :
  Forall printable chars -> Forall is_char chars /\ Forall nonzero chars.
Proof.
  intros H. split; eapply Forall_impl; try exact H;
    unfold printable, is_char, nonzero; intros; lia.
Qed.



(** ** The formatter *)

Lemma until_nul_split (l tail : list Z) :
  exists rest, l ++ 0 :: tail = until_nul l ++ 0 :: rest.
Proof.
  induction l as [|c l IH]; cbn [app until_nul].
  - exists tail. reflexivity.
  - destruct (c =? 0) eqn:E.
    + apply Z.eqb_eq in E. subst c. exists (l ++ 0 :: tail). reflexivity.
    + destruct IH as [rest IH]. exists rest. cbn [app]. rewrite IH.
      reflexivity.
Qed.

Lemma until_nul_nonzero (l : list Z) : Forall nonzero (until_nul l).
Proof.
  induction l as [|c l IH]; cbn [until_nul]; [constructor|].
  destruct (c =? 0) eqn:E; constructor; [|exact IH].
  apply Z.eqb_neq in E. exact E.
Qed.

Lemma until_nul_is_char (l : list Z) :
  Forall is_char l -> Forall is_char (until_nul l).
Proof.
  induction 1 as [|c l Hc _ IH]; cbn [until_nul]; [constructor|].
  destruct (c =? 0); constructor; assumption.
Qed.

Lemma until_nul_all (l : list Z) : Forall nonzero l -> until_nul l = l.
Proof.
  induction 1 as [|c l Hc _ IH]; cbn [until_nul]; [reflexivity|].
  destruct (c =? 0) eqn:E.
  - apply Z.eqb_eq in E. contradiction.
  - rewrite IH. reflexivity.
Qed.

Lemma Forall_firstn {A} (P : A -> Prop) (l : list A) :
  Forall P l -> forall n, Forall P (firstn n l).
Proof.
  induction 1 as [|x l Hx _ IH]; intros [|n]; cbn [firstn];
    constructor; auto.
Qed.

Lemma snprintf_buffer (buffer0 rendered : list Z) :
  length buffer0 = 128%nat ->
  length (fst (snprintf buffer0 128 rendered)) = 128%nat
  /\ exists tail,
      fst (snprintf buffer0 128 rendered) = firstn 127 rendered ++ 0 :: tail.
Proof.
  intros Hlen. unfold snprintf. cbn [fst]. split.
  - rewrite length_app. cbn [length]. rewrite length_skipn, Hlen.
    assert (H : (length (firstn 127 rendered) <= 127)%nat)
      by apply firstn_le_length.
    lia.
  - eexists. reflexivity.
Qed.

(** C7: for every format and arguments, [SendDebugf] has [snprintf] put at
    most 127 characters of the expansion and a terminator into its 128-byte
    buffer and calls [SendDebug] on the buffer; the call always returns,
    and what goes on the wire is the expansion when it fits and its first
    127 characters when it does not (in both cases up to a zero character,
    should the expansion hold one). *)
Theorem SendDebugf_truncates :
  forall v (format_t args_t : Type) (render : format_t -> args_t -> list Z)
         signed_char buffer0 format args s,
    length buffer0 = 128%nat ->
    Forall is_char (render format args) ->
    let rendered := render format args in
    let buffer := fst (snprintf buffer0 128 rendered) in
    length buffer = 128%nat
    /\ (exists tail, buffer = firstn 127 rendered ++ 0 :: tail)
    /\ ((length rendered + 1 <= 128)%nat -> firstn 127 rendered = rendered)
    /\ ((length rendered + 1 > 128)%nat ->
        length (firstn 127 rendered) = 127%nat)
    /\ SendDebugf_of v format_t args_t render signed_char buffer0 format args
       = SendDebug_of v signed_char buffer
    /\ exists s',
        SendDebugf_of v format_t args_t render signed_char buffer0 format args
                      s
        = Some (tt, s')
        /\ wire (emitted s s')
           = flat_map frame (until_nul (firstn 127 rendered))
        /\ (Forall nonzero rendered ->
            wire (emitted s s') = flat_map frame (firstn 127 rendered)).
Proof.
  intros v format_t args_t render signed_char buffer0 format args s
         Hlen Hc rendered buffer.
  destruct (snprintf_buffer buffer0 rendered Hlen) as [Hl [tail Hb]].
  fold buffer in Hl, Hb.
  split; [exact Hl|]. split; [exists tail; exact Hb|].
  split; [intros Hfit; apply firstn_all2; lia|].
  split; [intros Hbig; apply firstn_length_le; lia|].
  assert (Hcall :
            SendDebugf_of v format_t args_t render signed_char buffer0
                          format args
            = SendDebug_of v signed_char buffer)
    by (destruct v; reflexivity).
  split; [exact Hcall|].
  rewrite Hcall, Hb.
  destruct (until_nul_split (firstn 127 rendered) tail) as [rest Hsplit].
  rewrite Hsplit.
  assert (Hc' : Forall is_char (until_nul (firstn 127 rendered))).
  { apply until_nul_is_char. apply Forall_firstn. exact Hc. }
  eexists.
  split; [apply SendDebug_of_run; [exact Hc'|apply until_nul_nonzero]|].
  rewrite emitted_app, wire_samples_of by exact Hc'.
  split; [reflexivity|].
  intros Hnz. rewrite until_nul_all; [reflexivity|].
  apply Forall_firstn. exact Hnz.
Qed.

Lemma SendDebugf_truncates_witness :
  (length (repeat 170 128) = 128%nat
   /\ Forall is_char ((fun (f : list Z) (_ : unit) => f) (repeat 120 200) tt))
  /\ exists s',
      SendDebugf_of BusyLoop (list Z) unit (fun f _ => f) false
                    (repeat 170 128) (repeat 120 200) tt (mkHw true false [])
      = Some (tt, s')
      /\ wire (emitted (mkHw true false []) s')
         = flat_map frame (repeat 120 127).
Proof.
  assert (H : length (repeat 170 128) = 128%nat
              /\ Forall is_char
                        ((fun (f : list Z) (_ : unit) => f)
                           (repeat 120 200) tt)).
  { split; [reflexivity|].
    apply Forall_forall. intros c Hin. apply repeat_spec in Hin.
    subst c. unfold is_char. lia. }
  split; [exact H|].
  destruct H as (Hlen & Hc).
  destruct (SendDebugf_truncates BusyLoop (list Z) unit (fun f _ => f) false
              (repeat 170 128) (repeat 120 200) tt (mkHw true false [])
              Hlen Hc)
    as (_ & _ & _ & _ & _ & s' & Hrun & Hwire & _).
  exists s'. split; [exact Hrun|exact Hwire].
Defined.

(** ** The delay loops *)

Lemma CpuDelay_while_left tick fuel target :
  0 <= tick ->
  forall now t,
    Otavio.CpuDelay_while tick fuel target now = Some t ->
    now <= t /\ target <= Otavio.CYCCNT t.
Proof.
  intros Htick. induction fuel as [|fuel IH]; intros now t; cbn.
  - discriminate.
  - destruct (Otavio.CYCCNT now <? target) eqn:E.
    + intros H. apply IH in H. lia.
    + intros H. injection H as <-. apply Z.ltb_ge in E. lia.
Qed.

(** Away from the wrap the loop of src/fw/otavio.h does wait. *)
Lemma CpuDelay_waits_without_wrap tick fuel cycles now t :
  0 <= tick -> 0 <= cycles ->
  Otavio.CYCCNT now + cycles < two32 ->
  Otavio.CpuDelay tick fuel cycles now = Some t ->
  now + cycles <= t.
Proof.
  intros Htick Hcycles Hfit. unfold Otavio.CpuDelay.
  assert (Hs : 0 <= Otavio.CYCCNT now < two32)
    by (apply Z.mod_pos_bound; reflexivity).
  rewrite (Z.mod_small (Otavio.CYCCNT now + cycles)) by lia.
  intros H. apply CpuDelay_while_left in H; [|assumption].
  destruct H as [Hle Hreach].
  unfold Otavio.CYCCNT, two32 in *.
  change (2 ^ 32) with 4294967296 in *.
  Z.div_mod_to_equations. lia.
Qed.

Lemma CpuDelay_for_run fuel :
  forall i cycles nops,
    0 <= i <= cycles -> cycles < two32 ->
    (Z.to_nat (cycles - i) <= fuel)%nat ->
    Part000.CpuDelay_for fuel i cycles nops = Some (nops + (cycles - i)).
Proof.
  induction fuel as [|fuel IH]; intros i cycles nops Hi Hc Hfuel.
  - assert (i = cycles) by lia. subst i.
    cbn. rewrite Z.ltb_irrefl. f_equal. lia.
  - cbn [Part000.CpuDelay_for].
    destruct (i <? cycles) eqn:E.
    + apply Z.ltb_lt in E.
      rewrite Z.mod_small by lia.
      rewrite IH by lia. f_equal. lia.
    + apply Z.ltb_ge in E. f_equal. lia.
Qed.

(** The busy loop of src/unnamed/part_000 always ends, after [cycles]
    no-ops. *)
Lemma Part000_CpuDelay_total cycles :
  0 <= cycles < two32 ->
  Part000.CpuDelay (Z.to_nat cycles) cycles = Some cycles.
Proof.
  intros Hc. unfold Part000.CpuDelay.
  rewrite CpuDelay_for_run by lia. f_equal. lia.
Qed.

(** C2: the loop of src/fw/otavio.h tests [current < target], not
    [current - start >= cycles].  Entered with the counter at 0xFFFFFF00
    for 725 cycles, the sum wraps to 469 and the loop is left at its first
    test, one cycle after entry, where the comparison the specification
    asks for waits the 725 cycles. *)
Theorem CpuDelay_returns_early_on_wrap :
  forall fuel,
    Otavio.CpuDelay 1 (S fuel) Otavio.CPU_CYCLES 4294967040
    = Some (4294967040 + 1)
    /\ (4294967040 + 1) - 4294967040 < Otavio.CPU_CYCLES
    /\ CpuDelay_safe 1 1000 Otavio.CPU_CYCLES 4294967040
       = Some (4294967040 + Otavio.CPU_CYCLES).
Proof.
  intros fuel. split; [reflexivity|].
  split; [reflexivity|]. vm_compute. reflexivity.
Qed.

(** * Further properties of the code *)

(** ** The cycle-counter delay of src/fw/otavio.h *)

Lemma CYCCNT_range now : 0 <= Otavio.CYCCNT now < two32.
Proof. apply Z.mod_pos_bound. reflexivity. Qed.

Lemma CYCCNT_step now d :
  0 <= d -> Otavio.CYCCNT now + d < two32 ->
  Otavio.CYCCNT (now + d) = Otavio.CYCCNT now + d.
Proof.
  intros Hd Hfit. pose proof (CYCCNT_range now) as Hr.
  unfold Otavio.CYCCNT in *.
  rewrite Z.add_mod by (unfold two32; lia).
  rewrite (Z.mod_small d) by lia.
  apply Z.mod_small. lia.
Qed.

Lemma CpuDelay_while_reaches tick target :
  0 < tick -> target + tick <= two32 ->
  forall fuel now,
    (Z.to_nat (target - Otavio.CYCCNT now) < fuel)%nat ->
    exists t,
      Otavio.CpuDelay_while tick fuel target now = Some t
      /\ (target <= Otavio.CYCCNT now -> t = now)
      /\ (Otavio.CYCCNT now < target ->
          t - now < target - Otavio.CYCCNT now + tick)
      /\ target - Otavio.CYCCNT now <= t - now
      /\ now <= t.
Proof.
  intros Htick Hwin. induction fuel as [|fuel IH]; intros now Hfuel.
  - lia.
  - cbn [Otavio.CpuDelay_while].
    destruct (Otavio.CYCCNT now <? target) eqn:E.
    + apply Z.ltb_lt in E.
      assert (Hstep : Otavio.CYCCNT (now + tick) = Otavio.CYCCNT now + tick)
        by (apply CYCCNT_step; lia).
      destruct (IH (now + tick)) as (t & Hrun & Hnow & Hlt & Hge & Hle);
        [rewrite Hstep; lia|].
      exists t. split; [exact Hrun|]. rewrite Hstep in *.
      split; [lia|]. split; [|lia].
      intros _.
      destruct (Z_le_gt_dec target (Otavio.CYCCNT now + tick)) as [Hin|Hout].
      * rewrite (Hnow Hin). lia.
      * specialize (Hlt ltac:(lia)). lia.
    + apply Z.ltb_ge in E. exists now.
      split; [reflexivity|]. repeat split; lia.
Qed.



(** X2: when [start_cycle + cycles] wraps past the 32-bit boundary, the
    cycle-counter delay returns at its first test of the counter, whatever
    [cycles] is. *)
Theorem CpuDelay_wrap_returns_at_first_read :
  forall tick fuel cycles now,
    0 <= tick -> 0 <= cycles < two32 ->
    two32 <= Otavio.CYCCNT now + cycles ->
    Otavio.CYCCNT now + tick < two32 ->
    Otavio.CpuDelay tick (S fuel) cycles now = Some (now + tick).
Proof.
  intros tick fuel cycles now Htick Hcycles Hwrap Hfit.
  pose proof (CYCCNT_range now) as Hr.
  unfold Otavio.CpuDelay. cbn [Otavio.CpuDelay_while].
  rewrite CYCCNT_step by lia.
  assert (Ht : (Otavio.CYCCNT now + cycles) mod two32
               = Otavio.CYCCNT now + cycles - two32).
  { unfold two32 in *. change (2 ^ 32) with 4294967296 in *.
    Z.div_mod_to_equations. lia. }
  rewrite Ht.
  destruct (Otavio.CYCCNT now + tick <? Otavio.CYCCNT now + cycles - two32)
           eqn:E; [apply Z.ltb_lt in E; lia|reflexivity].
Qed.

Lemma CpuDelay_wrap_returns_at_first_read_witness :
  (0 <= 4 /\ 0 <= 100000 < two32
   /\ two32 <= Otavio.CYCCNT 4294960000 + 100000
   /\ Otavio.CYCCNT 4294960000 + 4 < two32)
  /\ Otavio.CpuDelay 4 1 100000 4294960000 = Some (4294960000 + 4).
Proof.
  assert (H : 0 <= 4 /\ 0 <= 100000 < two32
              /\ two32 <= Otavio.CYCCNT 4294960000 + 100000
              /\ Otavio.CYCCNT 4294960000 + 4 < two32).
  { unfold two32. repeat split; try lia; vm_compute; congruence. }
  split; [exact H|].
  destruct H as (H1 & H2 & H3 & H4).
  exact (CpuDelay_wrap_returns_at_first_read 4 0 100000 4294960000
           H1 H2 H3 H4).
Defined.

Lemma mod_tick_of_CYCCNT tick now :
  0 < tick -> two32 mod tick = 0 ->
  Otavio.CYCCNT now mod tick = now mod tick.
Proof.
  intros Htick Hdiv. unfold Otavio.CYCCNT.
  apply Z.mod_divide in Hdiv; [|lia]. destruct Hdiv as [M HM].
  rewrite (Z.div_mod now two32) at 2 by (unfold two32; lia).
  rewrite HM at 2.
  replace (M * tick * (now / two32) + now mod two32)
    with (now mod two32 + (M * (now / two32)) * tick) by ring.
  rewrite Z_mod_plus_full. reflexivity.
Qed.

Lemma CYCCNT_top_of_class tick now :
  0 < tick -> two32 mod tick = 0 ->
  Otavio.CYCCNT now <= two32 - tick + now mod tick.
Proof.
  intros Htick Hdiv.
  pose proof (mod_tick_of_CYCCNT tick now Htick Hdiv) as Hc.
  pose proof (CYCCNT_range now) as Hr.
  apply Z.mod_divide in Hdiv; [|lia]. destruct Hdiv as [M HM].
  pose proof (Z.div_mod (Otavio.CYCCNT now) tick ltac:(lia)) as Hdm.
  rewrite Hc in Hdm.
  pose proof (Z.mod_pos_bound now tick Htick) as Hrm.
  assert (Hq : Otavio.CYCCNT now / tick < M).
  { apply (Z.mul_lt_mono_pos_l tick); [assumption|]. lia. }
  assert (Hq' : tick * (Otavio.CYCCNT now / tick) <= tick * (M - 1)).
  { apply Z.mul_le_mono_nonneg_l; lia. }
  lia.
Qed.

Lemma CpuDelay_while_never tick target r :
  0 < tick -> two32 mod tick = 0 -> two32 - tick + r < target ->
  forall fuel now,
    now mod tick = r -> Otavio.CpuDelay_while tick fuel target now = None.
Proof.
  intros Htick Hdiv Htop. induction fuel as [|fuel IH]; intros now Hr.
  - reflexivity.
  - cbn [Otavio.CpuDelay_while].
    pose proof (CYCCNT_top_of_class tick now Htick Hdiv) as Hc.
    destruct (Otavio.CYCCNT now <? target) eqn:E.
    + apply IH. rewrite <- Hr.
      rewrite <- (Z.mul_1_l tick) at 1. apply Z_mod_plus_full.
    + apply Z.ltb_ge in E. lia.
Qed.

(** X3: the cycle-counter delay can spin for ever.  When the time from one read
    of the counter to the next divides 2^32, the values read all lie in one
    residue class; a target above the largest of them is never seen
    reached, however long the loop runs. *)
Theorem CpuDelay_never_returns :
  forall tick fuel cycles now,
    0 < tick -> two32 mod tick = 0 ->
    two32 - tick + now mod tick < (Otavio.CYCCNT now + cycles) mod two32 ->
    Otavio.CpuDelay tick fuel cycles now = None.
Proof.
  intros tick fuel cycles now Htick Hdiv Htop.
  unfold Otavio.CpuDelay.
  apply (CpuDelay_while_never tick _ (now mod tick)); try assumption.
  rewrite <- (Z.mul_1_l tick) at 1. apply Z_mod_plus_full.
Qed.

Lemma CpuDelay_never_returns_witness :
  (0 < 4 /\ two32 mod 4 = 0
   /\ two32 - 4 + 4294967000 mod 4
      < (Otavio.CYCCNT 4294967000 + 293) mod two32)
  /\ Otavio.CpuDelay 4 5000 293 4294967000 = None.
Proof.
  assert (H : 0 < 4 /\ two32 mod 4 = 0
              /\ two32 - 4 + 4294967000 mod 4
                 < (Otavio.CYCCNT 4294967000 + 293) mod two32).
  { repeat split; try lia; reflexivity. }
  split; [exact H|].
  destruct H as (H1 & H2 & H3).
  exact (CpuDelay_never_returns 4 5000 293 4294967000 H1 H2 H3).
Defined.

(** ** The busy loop of src/unnamed/part_000 *)

Lemma CpuDelay_for_short fuel :
  forall i cycles nops,
    0 <= i -> cycles < two32 ->
    (fuel < Z.to_nat (cycles - i))%nat ->
    Part000.CpuDelay_for fuel i cycles nops = None.
Proof.
  induction fuel as [|fuel IH]; intros i cycles nops Hi Hc Hfuel.
  - cbn. destruct (i <? cycles) eqn:E; [reflexivity|].
    apply Z.ltb_ge in E. lia.
  - cbn [Part000.CpuDelay_for].
    destruct (i <? cycles) eqn:E.
    + apply Z.ltb_lt in E. rewrite Z.mod_small by lia.
      apply IH; lia.
    + apply Z.ltb_ge in E. lia.
Qed.

(** X4: the busy loop executes [cycles] no-ops, no fewer and no more, for every
    32-bit [cycles]: its counter never overflows, and a call for zero
    cycles executes none. *)
Theorem busy_loop_runs_cycles_times :
  forall fuel cycles,
    0 <= cycles < two32 ->
    ((Z.to_nat cycles <= fuel)%nat ->
     Part000.CpuDelay fuel cycles = Some cycles)
    /\ ((fuel < Z.to_nat cycles)%nat ->
        Part000.CpuDelay fuel cycles = None).
Proof.
  intros fuel cycles Hc. unfold Part000.CpuDelay. split; intros Hfuel.
  - rewrite CpuDelay_for_run by lia. f_equal. lia.
  - apply CpuDelay_for_short; lia.
Qed.

Lemma busy_loop_runs_cycles_times_witness :
  (0 <= 145 < two32)
  /\ Part000.CpuDelay 145 145 = Some 145
  /\ Part000.CpuDelay 144 145 = None.
Proof.
  assert (H : 0 <= 145 < two32) by (unfold two32; lia).
  split; [exact H|].
  destruct (busy_loop_runs_cycles_times 145 145 H) as [Hsome _].
  destruct (busy_loop_runs_cycles_times 144 145 H) as [_ Hnone].
  split; [apply Hsome; lia|apply Hnone; lia].
Defined.

(** ** More on [SendDebug] *)

Lemma SendDebug_while_unterminated signed_char cycles :
  forall str s,
    Forall (fun b => char_to_int signed_char b <> 0) str ->
    SendDebug_while signed_char cycles str s = None.
Proof.
  induction str as [|b str IH]; intros s Hnz.
  - reflexivity.
  - inversion Hnz as [|? ? Hb Hrest]; subst.
    cbn [SendDebug_while].
    destruct (char_to_int signed_char b =? 0) eqn:E.
    + apply Z.eqb_eq in E. contradiction.
    + rewrite frame_run. apply IH. assumption.
Qed.

Lemma SendDebug_of_unterminated v signed_char str s :
  Forall is_char str -> Forall nonzero str ->
  SendDebug_of v signed_char str s = None.
Proof.
  intros Hc Hnz.
  pose proof (chars_nonzero signed_char str Hc Hnz) as H.
  destruct v; cbn [SendDebug_of].
  - unfold Otavio.SendDebug, bind, get_PRIMASK, disable_irq, DigitalOut_init.
    rewrite SendDebug_while_unterminated by assumption. reflexivity.
  - unfold Part000.SendDebug, bind, DigitalOut_init.
    rewrite SendDebug_while_unterminated by assumption. reflexivity.
Qed.



(** X6: two calls in a row put on the wire what one call on the two strings
    joined puts there: the frames of the first string, then those of the
    second, and ten delays for every byte of either. *)
Theorem SendDebug_calls_append :
  forall v signed_char a b rest_a rest_b rest s,
    Forall is_char a -> Forall nonzero a ->
    Forall is_char b -> Forall nonzero b ->
    exists s1 s2 s12,
      SendDebug_of v signed_char (a ++ 0 :: rest_a) s = Some (tt, s1)
      /\ SendDebug_of v signed_char (b ++ 0 :: rest_b) s1 = Some (tt, s2)
      /\ SendDebug_of v signed_char ((a ++ b) ++ 0 :: rest) s
         = Some (tt, s12)
      /\ wire (emitted s s12) = wire (emitted s s1) ++ wire (emitted s1 s2)
      /\ delays (emitted s s12)
         = (delays (emitted s s1) + delays (emitted s1 s2))%nat
      /\ pin s12 = pin s2 /\ PRIMASK s12 = PRIMASK s2.
Proof.
  intros v signed_char a b rest_a rest_b rest s Hca Hna Hcb Hnb.
  assert (Hcab : Forall is_char (a ++ b)) by (apply Forall_app; auto).
  assert (Hnab : Forall nonzero (a ++ b)) by (apply Forall_app; auto).
  eexists. eexists. eexists.
  split; [apply SendDebug_of_run; assumption|].
  split; [apply SendDebug_of_run; assumption|].
  split; [apply SendDebug_of_run; assumption|].
  rewrite !emitted_app, !wire_samples_of, !delays_samples_of by assumption.
  rewrite flat_map_app, length_app.
  repeat split; try reflexivity. lia.
Qed.

Lemma SendDebug_calls_append_witness :
  (Forall is_char [79] /\ Forall nonzero [79]
   /\ Forall is_char [75; 33] /\ Forall nonzero [75; 33])
  /\ exists s1 s2 s12,
      SendDebug_of BusyLoop false ([79] ++ 0 :: []) (mkHw true false [])
      = Some (tt, s1)
      /\ SendDebug_of BusyLoop false ([75; 33] ++ 0 :: []) s1 = Some (tt, s2)
      /\ SendDebug_of BusyLoop false (([79] ++ [75; 33]) ++ 0 :: [])
                      (mkHw true false [])
         = Some (tt, s12)
      /\ wire (emitted (mkHw true false []) s12)
         = wire (emitted (mkHw true false []) s1) ++ wire (emitted s1 s2).
Proof.
  assert (H : Forall is_char [79] /\ Forall nonzero [79]
              /\ Forall is_char [75; 33] /\ Forall nonzero [75; 33]).
  { unfold is_char, nonzero. repeat split; repeat constructor; lia. }
  split; [exact H|].
  destruct H as (H1 & H2 & H3 & H4).
  destruct (SendDebug_calls_append BusyLoop false [79] [75; 33] [] [] []
              (mkHw true false []) H1 H2 H3 H4)
    as (s1 & s2 & s12 & R1 & R2 & R12 & Hw & _).
  exists s1, s2, s12. repeat split; assumption.
Defined.

Lemma frame_samples_char_to_int signed_char cycles m b :
  is_char b ->
  frame_samples cycles m (char_to_int signed_char b)
  = frame_samples cycles m b.
Proof.
  unfold is_char, char_to_int. intros Hb.
  destruct (signed_char && (128 <=? b)) eqn:E; [|reflexivity].
  unfold frame_samples. cbn [for_samples Z.add Pos.add Pos.succ].
  rewrite !land1_bit by lia. rewrite !bit_below_sign by lia.
  reflexivity.
Qed.

Lemma SendDebug_while_any_char signed_char cycles :
  forall str s,
    Forall is_char str ->
    SendDebug_while signed_char cycles str s
    = SendDebug_while false cycles str s.
Proof.
  induction str as [|b str IH]; intros s Hc.
  - reflexivity.
  - inversion Hc as [|? ? Hb Hrest]; subst.
    cbn [SendDebug_while].
    assert (Hz : (char_to_int signed_char b =? 0)
                 = (char_to_int false b =? 0)).
    { unfold is_char, char_to_int in *.
      destruct (signed_char && (128 <=? b)) eqn:E; cbn [andb];
        [|reflexivity].
      apply andb_true_iff in E. destruct E as [_ E].
      apply Z.leb_le in E.
      destruct (b - 256 =? 0) eqn:E1, (b =? 0) eqn:E2; try reflexivity;
        rewrite ?Z.eqb_eq, ?Z.eqb_neq in *; lia. }
    rewrite Hz. destruct (char_to_int false b =? 0); [reflexivity|].
    rewrite !frame_run.
    rewrite (frame_samples_char_to_int signed_char) by assumption.
    rewrite (frame_samples_char_to_int false) by assumption.
    apply IH. assumption.
Qed.

(** X7: what [SendDebug] does is the same whether plain [char] is signed or
    unsigned: bytes from 0x80 up are framed alike, the sign extension
    staying above the eight bits that are sent. *)
Theorem SendDebug_char_signedness :
  forall v str s,
    Forall is_char str ->
    SendDebug_of v true str s = SendDebug_of v false str s.
Proof.
  intros v str s Hc.
  destruct v; cbn [SendDebug_of].
  - unfold Otavio.SendDebug, bind, get_PRIMASK, disable_irq, DigitalOut_init.
    rewrite SendDebug_while_any_char by assumption. reflexivity.
  - unfold Part000.SendDebug, bind, DigitalOut_init.
    rewrite SendDebug_while_any_char by assumption. reflexivity.
Qed.

Lemma SendDebug_char_signedness_witness :
  Forall is_char [200; 255; 0]
  /\ SendDebug_of CycleCounter true [200; 255; 0] (mkHw true false [])
     = SendDebug_of CycleCounter false [200; 255; 0] (mkHw true false []).
Proof.
  assert (H : Forall is_char [200; 255; 0]).
  { unfold is_char. repeat constructor; lia. }
  split; [exact H|].
  exact (SendDebug_char_signedness CycleCounter [200; 255; 0]
           (mkHw true false []) H).
Defined.

(** ** More on [SendDebugf] *)

Lemma SendDebugf_of_run v (format_t args_t : Type)
      (render : format_t -> args_t -> list Z)
      signed_char buffer0 format args s :
  Forall is_char (render format args) ->
  SendDebugf_of v format_t args_t render signed_char buffer0 format args s
  = Some (tt, mkHw true (PRIMASK s)
                   (trace s
                    ++ samples_of v signed_char
                         (until_nul (firstn 127 (render format args))) s)).
Proof.
  intros Hc.
  assert (Hcall :
            SendDebugf_of v format_t args_t render signed_char buffer0
                          format args
            = SendDebug_of v signed_char
                (fst (snprintf buffer0 128 (render format args))))
    by (destruct v; reflexivity).
  rewrite Hcall. unfold snprintf. cbn [fst].
  destruct (until_nul_split (firstn 127 (render format args))
              (skipn (S (length (firstn 127 (render format args))))
                     buffer0)) as [rest Hsplit].
  rewrite Hsplit.
  apply SendDebug_of_run; [|apply until_nul_nonzero].
  apply until_nul_is_char. apply Forall_firstn. exact Hc.
Qed.

Lemma until_nul_length (l : list Z) :
  (length (until_nul l) <= length l)%nat.
Proof.
  induction l as [|c l IH]; cbn [until_nul length]; [lia|].
  destruct (c =? 0); cbn [length]; lia.
Qed.



(** X9: what [SendDebugf] does never depends on what its buffer held before
    the call: bytes left over on the stack are not sent. *)
Theorem SendDebugf_ignores_stale_buffer :
  forall v (format_t args_t : Type) (render : format_t -> args_t -> list Z)
         signed_char buffer0 buffer0' format args s,
    Forall is_char (render format args) ->
    SendDebugf_of v format_t args_t render signed_char buffer0 format args s
    = SendDebugf_of v format_t args_t render signed_char buffer0' format args
                    s.
Proof.
  intros v format_t args_t render signed_char buffer0 buffer0' format args s
         Hc.
  rewrite !SendDebugf_of_run by assumption. reflexivity.
Qed.

Lemma SendDebugf_ignores_stale_buffer_witness :
  Forall is_char ((fun (f : list Z) (_ : unit) => f) [104; 105] tt)
  /\ SendDebugf_of BusyLoop (list Z) unit (fun f _ => f) false
                   (repeat 83 128) [104; 105] tt (mkHw true false [])
     = SendDebugf_of BusyLoop (list Z) unit (fun f _ => f) false
                     (repeat 0 128) [104; 105] tt (mkHw true false []).
Proof.
  assert (H : Forall is_char
                     ((fun (f : list Z) (_ : unit) => f) [104; 105] tt)).
  { unfold is_char. repeat constructor; lia. }
  split; [exact H|].
  exact (SendDebugf_ignores_stale_buffer BusyLoop (list Z) unit
           (fun f _ => f) false (repeat 83 128) (repeat 0 128)
           [104; 105] tt (mkHw true false []) H).
Defined.



(** ** The half-precision decoder *)

Lemma forall_bits_sound p :
  forall k base,
    forall_bits k base p = true ->
    forall v, base * 2 ^ Z.of_nat k <= v < (base + 1) * 2 ^ Z.of_nat k ->
              p v = true.
Proof.
  induction k as [|k IH]; intros base H v Hv.
  - cbn in Hv. cbn in H. replace v with base by lia. exact H.
  - cbn [forall_bits] in H. apply andb_true_iff in H. destruct H as [H0 H1].
    rewrite Nat2Z.inj_succ, Z.pow_succ_r in Hv by lia.
    assert (Hp : 0 < 2 ^ Z.of_nat k) by (apply Z.pow_pos_nonneg; lia).
    destruct (Z_lt_ge_dec v ((2 * base + 1) * 2 ^ Z.of_nat k)).
    + apply (IH _ H0). lia.
    + apply (IH _ H1). lia.
Qed.

Lemma SF_eqb_eq x y : SF_eqb x y = true -> x = y.
Proof.
  destruct x, y; cbn; try discriminate; intros H.
  - apply eqb_prop in H. congruence.
  - apply eqb_prop in H. congruence.
  - reflexivity.
  - apply andb_true_iff in H. destruct H as [H He].
    apply andb_true_iff in H. destruct H as [Hs Hm].
    apply eqb_prop in Hs. apply Pos.eqb_eq in Hm. apply Z.eqb_eq in He.
    congruence.
Qed.

(** The decoder agrees with [half_decode] on each of the 65536 patterns. *)
Lemma decode_check :
  forall_bits 16 0 (fun v => SF_eqb (float16_to_float32 v) (half_decode v))
  = true.
Proof. vm_compute. reflexivity. Qed.

Lemma float16_to_float32_closed_form v :
  is_uint16 v -> float16_to_float32 v = half_decode v.
Proof.
  intros Hv. apply SF_eqb_eq.
  apply (forall_bits_sound _ 16 0 decode_check).
  unfold is_uint16 in Hv. cbn. lia.
Qed.

Lemma half_check_all : forall_bits 16 0 half_check = true.
Proof. vm_compute. reflexivity. Qed.

Lemma order_check_all : forall_bits 15 0 order_check = true.
Proof. vm_compute. reflexivity. Qed.

Lemma half_fields v :
  is_uint16 v ->
  0 <= (v / 1024) mod 32 < 32 /\ 0 <= v mod 1024 < 1024
  /\ v = (if 32768 <=? v then 32768 else 0)
         + 1024 * ((v / 1024) mod 32) + v mod 1024.
Proof.
  unfold is_uint16. intros Hv.
  destruct (32768 <=? v) eqn:E;
    [apply Z.leb_le in E|apply Z.leb_gt in E];
    Z.div_mod_to_equations; lia.
Qed.

(** X11: the decoder returns a NaN exactly on the patterns with exponent field
    31 and a non-zero fraction, an infinity exactly on 0x7C00 and 0xFC00,
    and a zero exactly on 0x0000 and 0x8000, each with the sign of bit
    15. *)
Theorem float16_classes :
  forall v,
    is_uint16 v ->
    (float16_to_float32 v = NAN <-> 31744 < v mod 32768)
    /\ (forall b, float16_to_float32 v = S754_infinity b
                  <-> v = 31744 + (if b then 32768 else 0))
    /\ (forall b, float16_to_float32 v = S754_zero b
                  <-> v = (if b then 32768 else 0)).
Proof.
  intros v Hv. rewrite float16_to_float32_closed_form by assumption.
  destruct (half_fields v Hv) as (He & Hm & Hsum).
  unfold half_decode, NAN.
  assert (Hmod : v mod 32768 = 1024 * ((v / 1024) mod 32) + v mod 1024).
  { unfold is_uint16 in Hv. Z.div_mod_to_equations. lia. }
  assert (Hs : (32768 <=? v) = true /\ 32768 <= v
               \/ (32768 <=? v) = false /\ v < 32768).
  { destruct (32768 <=? v) eqn:E;
      [left; apply Z.leb_le in E|right; apply Z.leb_gt in E]; auto. }
  destruct Hs as [[Es Hs]|[Es Hs]]; rewrite Es in *;
    destruct ((v / 1024) mod 32 =? 0) eqn:E0;
    destruct ((v / 1024) mod 32 =? 31) eqn:E31;
    destruct (v mod 1024 =? 0) eqn:Em;
    rewrite ?Z.eqb_eq, ?Z.eqb_neq in *;
    (split; [|split; intros b; destruct b]);
    (split; intros H);
    first [ discriminate H | reflexivity | lia | exfalso; lia ].
Qed.

Lemma fields_of_negative v :
  0 <= v < 32768 ->
  ((v + 32768) / 1024) mod 32 = (v / 1024) mod 32
  /\ (v + 32768) mod 1024 = v mod 1024
  /\ (32768 <=? v + 32768) = true /\ (32768 <=? v) = false.
Proof.
  intros Hv. repeat split.
  - Z.div_mod_to_equations. lia.
  - Z.div_mod_to_equations. lia.
  - apply Z.leb_le. lia.
  - apply Z.leb_gt. lia.
Qed.


Lemma Qpower2_nz : ~ (2 == 0)%Q.
Proof. discriminate. Qed.

Lemma SF2Q_half_decode v :
  is_uint16 v -> (v / 1024) mod 32 <> 31 ->
  (SF2Q (half_decode v) == half_value v)%Q.
Proof.
  intros Hv Hfin.
  destruct (half_fields v Hv) as (He & Hm & _).
  unfold half_decode, half_value, SF2Q.
  set (e := (v / 1024) mod 32) in *. set (m := v mod 1024) in *.
  destruct (e =? 0) eqn:E0.
  - destruct (m =? 0) eqn:Em.
    + apply Z.eqb_eq in Em. rewrite Em.
      destruct (32768 <=? v); reflexivity.
    + apply Z.eqb_neq in Em.
      assert (Hl : 0 <= Z.log2 m < 10).
      { split; [apply Z.log2_nonneg|]. apply Z.log2_lt_pow2; lia. }
      set (d := Z.log2 m + 1) in *.
      rewrite Z2Pos.id
        by (apply Z.mul_pos_pos; [lia|apply Z.pow_pos_nonneg; lia]).
      rewrite inject_Z_mult.
      rewrite (Zpower_Qpower 2 (24 - d)) by lia.
      assert (H24 : (Qpower 2 (24 - d) * Qpower 2 (d - 48)
                     == Qpower 2 (-24))%Q).
      { rewrite <- Qpower_plus by exact Qpower2_nz.
        replace (24 - d + (d - 48)) with (-24) by lia. reflexivity. }
      change (inject_Z 2) with 2%Q.
      transitivity ((if 32768 <=? v then -1 else 1) * inject_Z m
                    * (Qpower 2 (24 - d) * Qpower 2 (d - 48)))%Q; [ring|].
      rewrite H24.
      change (Qpower 2 (-24)) with (1 # 16777216)%Q.
      change (Qpower 2 (-14)) with (1 # 16384)%Q.
      assert (Hx : (inject_Z m * (1 # 16777216)
                    == (m # 1024) * (1 # 16384))%Q)
        by (unfold Qeq, Qmult, inject_Z; cbn [Qnum Qden]; lia).
      rewrite <- Hx. ring.
  - destruct (e =? 31) eqn:E31; [apply Z.eqb_eq in E31; contradiction|].
    rewrite Z2Pos.id by lia.
    assert (H23 : (Qpower 2 (e - 15) == Qpower 2 (e - 38) * Qpower 2 23)%Q).
    { rewrite <- Qpower_plus by exact Qpower2_nz.
      replace (e - 38 + 23) with (e - 15) by lia. reflexivity. }
    rewrite H23.
    set (P := Qpower 2 (e - 38)).
    assert (Hm' : ((1 + (m # 1024)) * Qpower 2 23
                   == inject_Z ((1024 + m) * 8192))%Q).
    { change (Qpower 2 23) with (8388608 # 1)%Q.
      unfold Qeq, Qmult, Qplus, inject_Z. cbn [Qnum Qden]. lia. }
    transitivity ((if 32768 <=? v then -1 else 1)
                  * (((1 + (m # 1024)) * Qpower 2 23) * P))%Q;
      [rewrite Hm'|]; ring.
Qed.

Lemma half_check_at v : is_uint16 v -> half_check v = true.
Proof.
  intros Hv. apply (forall_bits_sound _ 16 0 half_check_all).
  unfold is_uint16 in Hv. cbn. lia.
Qed.

Lemma finite_pattern v :
  is_uint16 v -> v mod 32768 < 31744 -> (v / 1024) mod 32 <> 31.
Proof.
  unfold is_uint16. intros Hv Hfin. Z.div_mod_to_equations. lia.
Qed.

(** X12: on every finite pattern the float arithmetic of the decoder is exact:
    the float returned stands for the very number the binary16 pattern
    stands for, it is a binary32 number, and its magnitude is at most that
    of the decoding of 0x7BFF (65504). *)
Theorem float16_to_float32_exact :
  forall v,
    is_uint16 v -> v mod 32768 < 31744 ->
    (SF2Q (float16_to_float32 v) == half_value v)%Q
    /\ valid_binary 24 128 (float16_to_float32 v) = true
    /\ SFleb (SFabs (float16_to_float32 v)) (float16_to_float32 31743)
       = true.
Proof.
  intros v Hv Hfin.
  rewrite float16_to_float32_closed_form by assumption.
  split;
    [apply SF2Q_half_decode; [assumption|apply finite_pattern; assumption]|].
  pose proof (half_check_at v Hv) as H. unfold half_check in H.
  apply andb_true_iff in H. destruct H as [H Hrange].
  apply andb_true_iff in H. destruct H as [Hvalid _].
  split; [exact Hvalid|].
  apply orb_true_iff in Hrange. destruct Hrange as [Hbad|Hrange].
  - apply Z.leb_le in Hbad. lia.
  - exact Hrange.
Qed.

(** X15: two patterns other than NaNs that decode to the same float are the
    same pattern. *)
Theorem float16_to_float32_injective :
  forall a b,
    is_uint16 a -> is_uint16 b ->
    a mod 32768 <= 31744 -> b mod 32768 <= 31744 ->
    float16_to_float32 a = float16_to_float32 b -> a = b.
Proof.
  intros a b Ha Hb Hna Hnb Heq.
  rewrite !float16_to_float32_closed_form in Heq by assumption.
  assert (Henc : forall v, is_uint16 v -> v mod 32768 <= 31744 ->
                           half_encode (half_decode v) = v).
  { intros v Hv Hn. pose proof (half_check_at v Hv) as H.
    unfold half_check in H.
    apply andb_true_iff in H. destruct H as [H _].
    apply andb_true_iff in H. destruct H as [_ H].
    apply orb_true_iff in H. destruct H as [H|H].
    - apply Z.ltb_lt in H. lia.
    - apply Z.eqb_eq in H. exact H. }
  rewrite <- (Henc a Ha Hna), <- (Henc b Hb Hnb), Heq. reflexivity.
Qed.

Lemma order_key_lt x y kx ky :
  order_key x = Some kx -> order_key y = Some ky -> kx < ky ->
  SFltb x y = true.
Proof.
  unfold order_key, SFltb, SFcompare.
  destruct x as [[|]| [|] | |[|] mx ex]; try discriminate;
    destruct y as [[|]| [|] | |[|] my ey]; try discriminate;
    repeat match goal with
      | |- context [if ?c then _ else _] => destruct c eqn:?
      end; try discriminate;
    intros Hx Hy; injection Hx as <-; injection Hy as <-; intros Hlt;
    try reflexivity; try lia;
    repeat match goal with
      | H : _ && _ = true |- _ => apply andb_true_iff in H; destruct H
      end;
    rewrite ?Z.leb_le, ?Z.ltb_lt in *; try lia.
  destruct (Z.compare_spec ex ey) as [->|Hl|Hg]; [|reflexivity|lia].
  replace (Pos.compare_cont Eq mx my) with (Pos.compare mx my) by reflexivity.
  rewrite (proj2 (Pos.compare_lt_iff mx my)); [reflexivity|lia].
Qed.

Lemma order_key_grows :
  forall n a,
    0 <= a -> a + Z.of_nat n < 31744 ->
    exists ka kb,
      order_key (half_decode a) = Some ka
      /\ order_key (half_decode (a + Z.of_nat n + 1)) = Some kb
      /\ ka < kb.
Proof.
  assert (Hstep : forall v, 0 <= v < 31744 ->
                  exists ka kb,
                    order_key (half_decode v) = Some ka
                    /\ order_key (half_decode (v + 1)) = Some kb /\ ka < kb).
  { intros v Hv.
    pose proof (forall_bits_sound _ 15 0 order_check_all v) as H.
    specialize (H ltac:(cbn; lia)). unfold order_check in H.
    apply orb_true_iff in H. destruct H as [H|H].
    - apply Z.leb_le in H. lia.
    - destruct (order_key (half_decode v)) as [ka|]; [|discriminate].
      destruct (order_key (half_decode (v + 1))) as [kb|]; [|discriminate].
      apply Z.ltb_lt in H. exists ka, kb. auto. }
  induction n as [|n IH]; intros a Ha Hn.
  - replace (a + Z.of_nat 0 + 1) with (a + 1) by lia. apply Hstep. lia.
  - destruct (IH a Ha ltac:(lia)) as (ka & km & Hka & Hkm & Hlt).
    destruct (Hstep (a + Z.of_nat n + 1) ltac:(lia))
      as (km' & kb & Hkm' & Hkb & Hlt').
    rewrite Hkm in Hkm'. injection Hkm' as <-.
    exists ka, kb. split; [exact Hka|]. split; [|lia].
    replace (a + Z.of_nat (S n) + 1) with (a + Z.of_nat n + 1 + 1) by lia.
    exact Hkb.
Qed.

(** X14: from 0x0000 up to 0x7C00 (plus infinity) the decoder is strictly
    increasing: a larger pattern gives a larger float. *)
Theorem float16_to_float32_increasing :
  forall a b,
    0 <= a -> a < b -> b <= 31744 ->
    SFltb (float16_to_float32 a) (float16_to_float32 b) = true.
Proof.
  intros a b Ha Hab Hb.
  rewrite !float16_to_float32_closed_form by (unfold is_uint16; lia).
  destruct (order_key_grows (Z.to_nat (b - a - 1)) a Ha ltac:(lia))
    as (ka & kb & Hka & Hkb & Hlt).
  replace (a + Z.of_nat (Z.to_nat (b - a - 1)) + 1) with b in Hkb by lia.
  exact (order_key_lt _ _ ka kb Hka Hkb Hlt).
Qed.

Lemma float16_classes_witness :
  is_uint16 32256 /\ float16_to_float32 32256 = NAN.
Proof.
  assert (H : is_uint16 32256) by (unfold is_uint16; lia).
  split; [exact H|].
  destruct (float16_classes 32256 H) as [[_ Hnan] _].
  apply Hnan. reflexivity.
Defined.


Lemma float16_to_float32_exact_witness :
  (is_uint16 13653 /\ 13653 mod 32768 < 31744)
  /\ (SF2Q (float16_to_float32 13653) == half_value 13653)%Q.
Proof.
  assert (H : is_uint16 13653 /\ 13653 mod 32768 < 31744).
  { unfold is_uint16. split; [lia|reflexivity]. }
  split; [exact H|].
  destruct H as (Hv & Hfin).
  destruct (float16_to_float32_exact 13653 Hv Hfin) as [Hq _].
  exact Hq.
Defined.

Lemma float16_to_float32_injective_witness :
  (is_uint16 0 /\ is_uint16 32768
   /\ 0 mod 32768 <= 31744 /\ 32768 mod 32768 <= 31744)
  /\ float16_to_float32 0 <> float16_to_float32 32768.
Proof.
  assert (H : is_uint16 0 /\ is_uint16 32768
              /\ 0 mod 32768 <= 31744 /\ 32768 mod 32768 <= 31744).
  { unfold is_uint16. repeat split; try lia; discriminate. }
  split; [exact H|].
  destruct H as (Ha & Hb & Hna & Hnb).
  intros Heq.
  pose proof (float16_to_float32_injective 0 32768 Ha Hb Hna Hnb Heq)
    as Habs.
  discriminate Habs.
Defined.

Lemma float16_to_float32_increasing_witness :
  (0 <= 1023 /\ 1023 < 1024 /\ 1024 <= 31744)
  /\ SFltb (float16_to_float32 1023) (float16_to_float32 1024) = true.
Proof.
  assert (H : 0 <= 1023 /\ 1023 < 1024 /\ 1024 <= 31744) by lia.
  split; [exact H|].
  destruct H as (Ha & Hab & Hb).
  exact (float16_to_float32_increasing 1023 1024 Ha Hab Hb).
Defined.
